(** * TabBar

    A shallow embedding of [src/components/tabBar/index.tsx]: the [TabBar]
    class component (its instance fields, its methods and its render
    output), run by a small model of the React runtime it lives in
    (batched [setState] with completion callbacks, [componentDidUpdate],
    ref attachment at commit, zero-delay timers).

    Conventions.
    - JavaScript numbers that the component handles (indices, widths,
      offsets) are integers in [Z]; an [undefined] value is [None].
    - Functions handed in by the host (the [onChangeIndex], [onTabSelected]
      and [onPress] props) are opaque: a function is named by a [Handler]
      and calling it is recorded in the effect log, under the name of the
      prop it was found in, as is the imperative [scrollTo] of the scroll
      bar.
    - A method that reads or writes [this] is a computation in the monad
      [M]: it may throw, and what it wrote before throwing stays written. *)

From Stdlib Require Import Ascii.
From stdpp Require Import base list strings pretty.

Open Scope Z_scope.

(** ** Data *)

Definition MIN_TABS_FOR_SCROLL : Z := 1.

(** The name of a host function passed as a prop. *)
Definition Handler := nat.

(** What [TabBarItem.getLayout()] answers once the item was measured. *)
Module Layout.
Record t := mk { x : Z; width : Z }.
End Layout.

(** [event.nativeEvent.contentOffset] of a scroll event. *)
Module Offset.
Record t := mk { x : Z; y : Z }.
End Offset.

(** The props of one [TabBar.Item] element, as far as [TabBar] reads them. *)
Module ItemProps.
Record t := mk {
  ignore : bool;
  label : option string;
  accessibilityLabel : option string;
  onPress : option Handler
}.
End ItemProps.

(** Modelled from the spec: the tab item class ([TabBarItem]) is not part of
    this file; it "exposes a layout query", which is all [TabBar] asks of
    the handles it stores in [this.itemsRefs]. The answer is [undefined]
    until the host has measured the item. *)
Module ItemRef.
Record t := mk { getLayout : option Layout.t }.
End ItemRef.

(** One child of the tab bar: the element the parent passed, together with
    the layout that the host reports for the item mounted at that place. *)
Module Child.
Record t := mk { props : ItemProps.t; layout : option Layout.t }.
End Child.

Module Props.
Record t := mk {
  minTabsForScroll : option Z;
  selectedIndex : Z;
  onChangeIndex : option Handler;
  onTabSelected : option Handler;
  containerWidth : option Z;
  children : list Child.t
}.
End Props.

Module State.
Record t := mk { scrollEnabled : bool; currentIndex : Z }.
End State.

(** What [renderChildren] injects into the clone of a child. The two
    closures are kept as the values they capture: [onPress] calls
    [onItemPress pressIndex pressProps], [ref] stores the mounted item at
    [itemsRefs[refIndex]]. The styling props are left out. *)
Module Clone.
Record t := mk {
  selected : bool;
  pressIndex : Z;
  pressProps : ItemProps.t;
  refIndex : nat;
  accessibilityLabel : string
}.
End Clone.

(** The partial state of a [setState] call and its completion callback. *)
Inductive Patch :=
| PatchCurrentIndex (index : Z)
| PatchScrollEnabled (enabled : bool).

Inductive Callback :=
| CbScrollToSelected.

Record Update := mkUpdate { patch : Patch; callback : option Callback }.

(** The closure that [onItemPress] hands to [setTimeout]. *)
Record Task := mkTask { taskIndex : Z; taskProps : ItemProps.t }.

(** What leaves the component. *)
Inductive Effect :=
| Invoke (name : string) (f : Handler) (args : list Z)
| ScrollTo (x y : Z) (animated : bool).

Inductive Error :=
| TypeError          (* a property of undefined was read *)
| MaxUpdateDepth.    (* React's limit on nested updates *)

(** The component instance and the part of its surroundings it depends on. *)
Record World := mkWorld {
  (* this *)
  props : Props.t;
  state : State.t;
  scrollContentWidth : option Z;
  contentOffset : Offset.t;
  itemsRefs : list (option ItemRef.t);
  (* React *)
  updates : list Update;
  timers : list Task;
  tree : list Clone.t;
  (* host *)
  screenWidth : Z;
  effects : list Effect
}.

Definition set_props (p : Props.t) (w : World) : World :=
  mkWorld p (state w) (scrollContentWidth w) (contentOffset w) (itemsRefs w)
          (updates w) (timers w) (tree w) (screenWidth w) (effects w).
Definition set_state (s : State.t) (w : World) : World :=
  mkWorld (props w) s (scrollContentWidth w) (contentOffset w) (itemsRefs w)
          (updates w) (timers w) (tree w) (screenWidth w) (effects w).
Definition set_scrollContentWidth (c : option Z) (w : World) : World :=
  mkWorld (props w) (state w) c (contentOffset w) (itemsRefs w)
          (updates w) (timers w) (tree w) (screenWidth w) (effects w).
Definition set_contentOffset (o : Offset.t) (w : World) : World :=
  mkWorld (props w) (state w) (scrollContentWidth w) o (itemsRefs w)
          (updates w) (timers w) (tree w) (screenWidth w) (effects w).
Definition set_itemsRefs (r : list (option ItemRef.t)) (w : World) : World :=
  mkWorld (props w) (state w) (scrollContentWidth w) (contentOffset w) r
          (updates w) (timers w) (tree w) (screenWidth w) (effects w).
Definition set_updates (u : list Update) (w : World) : World :=
  mkWorld (props w) (state w) (scrollContentWidth w) (contentOffset w)
          (itemsRefs w) u (timers w) (tree w) (screenWidth w) (effects w).
Definition set_timers (t : list Task) (w : World) : World :=
  mkWorld (props w) (state w) (scrollContentWidth w) (contentOffset w)
          (itemsRefs w) (updates w) t (tree w) (screenWidth w) (effects w).
Definition set_tree (t : list Clone.t) (w : World) : World :=
  mkWorld (props w) (state w) (scrollContentWidth w) (contentOffset w)
          (itemsRefs w) (updates w) (timers w) t (screenWidth w) (effects w).
Definition set_screenWidth (z : Z) (w : World) : World :=
  mkWorld (props w) (state w) (scrollContentWidth w) (contentOffset w)
          (itemsRefs w) (updates w) (timers w) (tree w) z (effects w).
Definition set_effects (e : list Effect) (w : World) : World :=
  mkWorld (props w) (state w) (scrollContentWidth w) (contentOffset w)
          (itemsRefs w) (updates w) (timers w) (tree w) (screenWidth w) e.

(** ** JavaScript values *)

(** [l[i]] for a number [i]: [undefined] below zero and past the end. *)
Definition js_index {A} (l : list A) (i : Z) : option A :=
  if i <? 0 then None else l !! Z.to_nat i.

(** [l[i] = v]: past the end the array grows, the gap is left empty. *)
Definition js_assign {A} (i : nat) (v : A) (l : list (option A)) : list (option A) :=
  if decide (i < length l)%nat then <[i := Some v]> l
  else l ++ replicate (i - length l) None ++ [Some v].

(** Truthiness of an optional string: [undefined] and [''] are falsy. *)
Definition truthy_string (s : option string) : bool :=
  match s with
  | Some (String _ _) => true
  | _ => false
  end.

(** [a || b] on optional strings. *)
Definition js_or (a b : option string) : option string :=
  if truthy_string a then a else b.

(** [n || d] on an optional number with a number as the fallback. *)
Definition js_or_number (n : option Z) (d : Z) : Z :=
  match n with
  | Some z => if z =? 0 then d else z
  | None => d
  end.

(** Interpolation of a value inside a template literal. *)
Definition js_string (s : option string) : string :=
  default "undefined"%string s.

(** ** The monad of methods *)

Inductive Res (A : Type) :=
| Ret (a : A)
| Throw (e : Error).
Arguments Ret {A} a.
Arguments Throw {A} e.

Definition M (A : Type) : Type := World -> Res A * World.

Definition ret {A} (a : A) : M A := fun w => (Ret a, w).
Definition bind {A B} (m : M A) (k : A -> M B) : M B :=
  fun w => match m w with
           | (Ret a, w') => k a w'
           | (Throw e, w') => (Throw e, w')
           end.
Definition throw {A} (e : Error) : M A := fun w => (Throw e, w).
Definition get : M World := fun w => (Ret w, w).
Definition gets {A} (f : World -> A) : M A := fun w => (Ret (f w), w).
Definition modify (f : World -> World) : M unit := fun w => (Ret tt, f w).
Definition when (b : bool) (m : M unit) : M unit := if b then m else ret tt.

#[global] Instance M_ret : MRet M := @ret.
#[global] Instance M_bind : MBind M := fun A B k m => bind m k.

(** The world a computation leaves, whether it returned or threw. *)
Definition exec {A} (m : M A) (w : World) : World := snd (m w).

Fixpoint forM_ {A} (f : A -> M unit) (l : list A) : M unit :=
  match l with
  | [] => mret tt
  | a :: l' => f a;; forM_ f l'
  end.

(** ** The component *)

(** [constructor(props)]. [itemsRefs] is first assigned by [renderChildren]. *)
Definition constructor (p : Props.t) (sw : Z) : World :=
  mkWorld p (State.mk false (Props.selectedIndex p)) None (Offset.mk 0 0) []
          [] [] [] sw [].

Definition childrenCount (w : World) : Z :=
  Z.of_nat (length (Props.children (props w))).

(** [Constants.screenWidth] comes from the helpers module; it is the width
    of the screen as the host reports it, the [screenWidth] of the world. *)
Definition scrollContainerWidth (w : World) : Z :=
  js_or_number (Props.containerWidth (props w)) (screenWidth w).

(** [_.get(child, 'props.ignore')]; no child at [index] gives [undefined],
    which the callers only negate. *)
Definition isIgnored (index : Z) (w : World) : bool :=
  match js_index (Props.children (props w)) index with
  | Some child => ItemProps.ignore (Child.props child)
  | None => false
  end.

(** [undefined > n] is false. *)
Definition hasOverflow (w : World) : bool :=
  match scrollContentWidth w with
  | Some width => width >? scrollContainerWidth w
  | None => false
  end.

Definition shouldBeMarked (index : Z) (w : World) : bool :=
  (State.currentIndex (state w) =? index)
  && negb (isIgnored index w)
  && (childrenCount w >? 1).

(** [this.setState(patch, callback)] only queues the update. *)
Definition setState (p : Patch) (cb : option Callback) : M unit :=
  modify (fun w => set_updates (updates w ++ [mkUpdate p cb]) w).

Definition updateIndicator (index : Z) : M unit :=
  ignored ← gets (isIgnored index);
  when (negb ignored)
       (setState (PatchCurrentIndex index) (Some CbScrollToSelected)).

Definition emit (e : Effect) : M unit :=
  modify (fun w => set_effects (effects w ++ [e]) w).

(** [_.invoke(object, name, ...args)] calls [object[name]] if there is one;
    [h] is what the object holds under [name]. *)
Definition invoke (h : option Handler) (name : string) (args : list Z) : M unit :=
  match h with
  | Some f => emit (Invoke name f args)
  | None => mret tt
  end.

(** Modelled from the spec: the scroll bar is not part of this file; it
    "exposes imperative scroll-to-position", and [this.scrollBar.current] is
    attached for as long as the tab bar is mounted. *)
Definition scrollTo (x y : Z) (animated : bool) : M unit :=
  emit (ScrollTo x y animated).

Definition scrollToSelected (animated : bool) : M unit :=
  w ← get;
  match mjoin (js_index (itemsRefs w) (State.currentIndex (state w))) with
  | None => throw TypeError
  | Some childRef =>
      match ItemRef.getLayout childRef with
      | Some childLayout =>
          when (hasOverflow w)
            (if Layout.x childLayout + Layout.width childLayout
                - Offset.x (contentOffset w) >? scrollContainerWidth w
             then scrollTo (Layout.x childLayout - scrollContainerWidth w
                            + Layout.width childLayout) 0 animated
             else if Layout.x childLayout - Offset.x (contentOffset w) <? 0
             then scrollTo (Layout.x childLayout) 0 animated
             else mret tt)
      | None => mret tt
      end
  end.

Definition onChangeIndex (index : Z) : M unit :=
  p ← gets props; invoke (Props.onChangeIndex p) "onChangeIndex" [index].

Definition onTabSelected (index : Z) : M unit :=
  p ← gets props; invoke (Props.onTabSelected p) "onTabSelected" [index].

(** [setTimeout(task, 0)] *)
Definition setTimeout (t : Task) : M unit :=
  modify (fun w => set_timers (timers w ++ [t]) w).

Definition onItemPress (index : Z) (p : ItemProps.t) : M unit :=
  updateIndicator index;;
  setTimeout (mkTask index p).

(** The body of the closure queued by [onItemPress]. *)
Definition runTask (t : Task) : M unit :=
  when (negb (ItemProps.ignore (taskProps t))) (onChangeIndex (taskIndex t));;
  onTabSelected (taskIndex t);;
  invoke (ItemProps.onPress (taskProps t)) "onPress" [].

Definition onScroll (offset : Offset.t) : M unit :=
  modify (set_contentOffset offset).

Definition onContentSizeChange (width : Z) : M unit :=
  w ← get;
  when (negb (bool_decide (scrollContentWidth w = Some width)))
    (modify (set_scrollContentWidth (Some width));;
     minTabsForScroll ← gets (fun w => Props.minTabsForScroll (props w));
     let minChildrenCount := js_or_number minTabsForScroll MIN_TABS_FOR_SCROLL in
     overflow ← gets hasOverflow;
     count ← gets childrenCount;
     when (overflow && (count >? minChildrenCount))
          (setState (PatchScrollEnabled true) None)).

Definition componentDidUpdate (prevProps : Props.t) (prevState : State.t) : M unit :=
  let prevChildrenCount := Z.of_nat (length (Props.children prevProps)) in
  count ← gets childrenCount;
  when (count <? prevChildrenCount) (updateIndicator 0);;
  w ← get;
  let isIndexManuallyChanged :=
    negb (Props.selectedIndex (props w) =? State.currentIndex prevState)
    && negb (Props.selectedIndex prevProps =? Props.selectedIndex (props w)) in
  when isIndexManuallyChanged (updateIndicator (Props.selectedIndex (props w))).

(** The label computed for a child: [accessibilityLabel || label || '']. *)
Definition accessLabel (p : ItemProps.t) : option string :=
  js_or (js_or (ItemProps.accessibilityLabel p) (ItemProps.label p)) (Some EmptyString).

Definition cloneElement (w : World) (index : nat) (child : Child.t) : Clone.t :=
  Clone.mk (shouldBeMarked (Z.of_nat index) w)
           (Z.of_nat index) (Child.props child)
           index
           (js_string (accessLabel (Child.props child))
              +:+ " " +:+ pretty (Z.of_nat index + 1)
              +:+ " out of " +:+ pretty (childrenCount w)).

Definition renderChildren : M (list Clone.t) :=
  modify (set_itemsRefs []);;
  w ← get;
  mret (imap (cloneElement w) (Props.children (props w))).

(** ** The React runtime around the component *)

(** The host's handle on the item mounted for a child. *)
Definition mountedItem (child : Child.t) : ItemRef.t :=
  ItemRef.mk (Child.layout child).

(** The [ref] closure of a clone: [r => this.itemsRefs[index] = r]. *)
Definition attachRef (cr : Clone.t * ItemRef.t) : M unit :=
  modify (fun w => set_itemsRefs (js_assign (Clone.refIndex cr.1) cr.2 (itemsRefs w)) w).

(** One render pass and its commit: the output of [renderChildren] becomes
    the mounted tree, then every clone's [ref] is called with its item. *)
Definition render : M unit :=
  clones ← renderChildren;
  modify (set_tree clones);;
  w ← get;
  forM_ attachRef (zip clones (mountedItem <$> Props.children (props w))).

Definition applyPatch (s : State.t) (p : Patch) : State.t :=
  match p with
  | PatchCurrentIndex index => State.mk (State.scrollEnabled s) index
  | PatchScrollEnabled enabled => State.mk enabled (State.currentIndex s)
  end.

Definition runCallback (cb : Callback) : M unit :=
  match cb with
  | CbScrollToSelected => scrollToSelected true
  end.

(** React gives up after this many updates nested in one another. *)
Definition NESTED_UPDATE_LIMIT : nat := 50.

(** Processing the queued updates: merge them into the state, render,
    commit ([componentDidUpdate], then the callbacks of the updates just
    merged), and go again if the commit queued more. *)
Fixpoint flush (fuel : nat) : M unit :=
  w ← get;
  match updates w with
  | [] => mret tt
  | us =>
      match fuel with
      | O => throw MaxUpdateDepth
      | S fuel' =>
          let prevState := state w in
          modify (fun w => set_updates []
                    (set_state (foldl applyPatch prevState (patch <$> us)) w));;
          render;;
          componentDidUpdate (props w) prevState;;
          forM_ runCallback (omap callback us);;
          flush fuel'
      end
  end.

(** The parent renders the tab bar again with [nextProps]. *)
Definition receiveProps (nextProps : Props.t) : M unit :=
  w ← get;
  let prevProps := props w in
  let prevState := state w in
  modify (set_props nextProps);;
  render;;
  componentDidUpdate prevProps prevState;;
  flush NESTED_UPDATE_LIMIT.

(** What can happen to a mounted tab bar. *)
Inductive Event :=
| Press (i : nat)                  (* the user presses the i-th mounted tab *)
| Scroll (offset : Offset.t)       (* the scroll bar reports its offset *)
| ContentSizeChange (width : Z)    (* the scroll bar reports its content width *)
| ReceiveProps (p : Props.t)       (* the parent passes new props *)
| TimerFires                       (* the oldest zero-delay timer fires *)
| Resize (width : Z).              (* the host reports a new screen width *)

Definition handle (e : Event) : M unit :=
  match e with
  | Press i =>
      w ← get;
      match tree w !! i with
      | Some clone => onItemPress (Clone.pressIndex clone) (Clone.pressProps clone)
      | None => mret tt
      end;;
      flush NESTED_UPDATE_LIMIT
  | Scroll offset => onScroll offset
  | ContentSizeChange width =>
      onContentSizeChange width;;
      flush NESTED_UPDATE_LIMIT
  | ReceiveProps p => receiveProps p
  | TimerFires =>
      w ← get;
      match timers w with
      | t :: ts => modify (set_timers ts);; runTask t
      | [] => mret tt
      end
  | Resize width => modify (set_screenWidth width)
  end.

(** A run of events; an event that throws ends it. *)
Fixpoint run (es : list Event) : M unit :=
  match es with
  | [] => mret tt
  | e :: es' => handle e;; run es'
  end.

(** The tab bar right after mounting with props [p] on a screen [sw] wide. *)
Definition mount (p : Props.t) (sw : Z) : World :=
  exec render (constructor p sw).

(** ** Worlds and computations: the notions of the statements *)

(** The world after one render pass. *)
Definition rendered (w : World) : World :=
  set_itemsRefs (Some ∘ mountedItem <$> Props.children (props w))
    (set_tree (imap (cloneElement w) (Props.children (props w))) w).

(** The world after the queued updates were merged and rendered. *)
Definition commit (w : World) : World :=
  rendered (set_updates []
              (set_state (foldl applyPatch (state w) (patch <$> updates w)) w)).

(** The mounted tree and the refs are those of a render of the current props
    and state. *)
Definition consistent (w : World) : Prop :=
  tree w = imap (cloneElement w) (Props.children (props w))
  /\ itemsRefs w = (Some ∘ mountedItem <$> Props.children (props w)).

(** Nothing is queued and the last render is up to date. *)
Definition settled (w : World) : Prop :=
  updates w = [] /\ consistent w.

(** Two worlds that differ in their effect log only. *)
Definition same_instance (w w' : World) : Prop :=
  w' = set_effects (effects w') w.

(** [preserves P m]: running [m] keeps [P], whether it returns or throws. *)
Definition preserves {A} (P : World -> Prop) (m : M A) : Prop :=
  forall w, P w -> P (m w).2.

(** [stable P]: [P] looks at the props, the state, the update queue, the
    mounted tree and the refs only. *)
Definition stable (P : World -> Prop) : Prop :=
  forall w w',
    props w = props w' -> state w = state w' -> updates w = updates w' ->
    tree w = tree w' -> itemsRefs w = itemsRefs w' -> P w -> P w'.

(** The scroll flag is [b], and no queued update would make it [negb b]. *)
Definition scroll_flag (b : bool) (w : World) : Prop :=
  State.scrollEnabled (state w) = b
  /\ Forall (fun u => patch u <> PatchScrollEnabled (negb b)) (updates w).



(** The calls that [_.invoke] makes: one if the function is there. *)
Definition called (h : option Handler) (name : string) (args : list Z) : list Effect :=
  match h with
  | Some f => [Invoke name f args]
  | None => []
  end.

(** The world in which the press of a tab that is not ignored was merged and
    rendered, before the callback of the update runs. *)
Definition selecting (i : nat) (p : ItemProps.t) (w : World) : World :=
  commit (set_timers (timers w ++ [mkTask (Z.of_nat i) p])
            (set_updates [mkUpdate (PatchCurrentIndex (Z.of_nat i))
                                   (Some CbScrollToSelected)] w)).

(** The event [e] does not report a content wider than the container. *)
Definition fits (e : Event) (w : World) : Prop :=
  match e with
  | ContentSizeChange width => width <= scrollContainerWidth w
  | _ => True
  end.

(** Along the run [es] from [w], no event reports a content wider than the
    container is at that moment. *)
Fixpoint never_wider (es : list Event) (w : World) : Prop :=
  match es with
  | [] => True
  | e :: es' =>
      fits e w
      /\ match handle e w with
         | (Ret _, w') => never_wider es' w'
         | (Throw _, _) => True
         end
  end.

(** ** Sample data *)

Definition item (ignore : bool) (label : string) (h : Handler) : ItemProps.t :=
  ItemProps.mk ignore (Some label) None (Some h).

Definition placed (p : ItemProps.t) (x width : Z) : Child.t :=
  Child.mk p (Some (Layout.mk x width)).

(** Three tabs of width 200 each, side by side, the middle one ignored. *)
Definition threeTabs : Props.t :=
  Props.mk None 0 (Some 1%nat) (Some 2%nat) None
    [ placed (item false "Home" 10%nat) 0 200;
      placed (item true "Search" 11%nat) 200 200;
      placed (item false "Cart" 12%nat) 400 200 ].

(** The tab bar of [threeTabs] once its content, 600 wide, was reported. *)
Definition overflowing : World :=
  exec (handle (ContentSizeChange 600)) (mount threeTabs 375).

(** A single tab whose [accessibilityLabel] is the empty string. *)
Definition emptyAccessibilityLabel : Props.t :=
  Props.mk None 0 None None None
    [ Child.mk (ItemProps.mk false (Some "Home") (Some EmptyString) None) None ].

(** Three tabs in a container whose width the parent sets. *)
Definition inContainer (containerWidth : Z) : Props.t :=
  Props.mk None 0 (Some 1%nat) (Some 2%nat) (Some containerWidth)
           (Props.children threeTabs).


(** [threeTabs] after its last tab was pressed. *)
Definition lastSelected : World :=
  exec (run [Press 2; TimerFires]) (mount threeTabs 375).

(** [threeTabs] without its first tab: the ignored tab is now the first. *)
Definition twoTabs : Props.t :=
  Props.mk None 0 (Some 1%nat) (Some 2%nat) None
    [ placed (item true "Search" 11%nat) 0 200;
      placed (item false "Cart" 12%nat) 200 200 ].

(** [threeTabs] without its last tab. *)
Definition firstTwoTabs : Props.t :=
  Props.mk None 0 (Some 1%nat) (Some 2%nat) None
    [ placed (item false "Home" 10%nat) 0 200;
      placed (item true "Search" 11%nat) 200 200 ].

(** ** The claims that do not hold as they are stated *)

(** C1 as stated, for the tab at [i] of the world [w]. *)
Definition press_ignored_as_stated (w : World) (i : nat) : Prop :=
  forall child,
    settled w ->
    timers w = [] ->
    Props.children (props w) !! i = Some child ->
    ItemProps.ignore (Child.props child) = true ->
    let after := exec (run [Press i; TimerFires]) w in
    State.currentIndex (state after) = Z.of_nat i
    /\ (forall f args,
           Invoke "onChangeIndex" f args ∈ effects after ->
           Invoke "onChangeIndex" f args ∈ effects w)
    /\ effects after
       = effects w
           ++ called (Props.onTabSelected (props w)) "onTabSelected" [Z.of_nat i]
           ++ called (ItemProps.onPress (Child.props child)) "onPress" [].


(** C6 as stated, for the update of the world [w] to [nextProps]. *)
Definition fewer_children_as_stated (w : World) (nextProps : Props.t) : Prop :=
  settled w ->
  (length (Props.children nextProps) < length (Props.children (props w)))%nat ->
  State.currentIndex (state (exec (handle (ReceiveProps nextProps)) w)) = 0.

(** The label of the claim, word for word: the child's own
    [accessibilityLabel] if it has one, else its [label], else nothing. *)
Definition label_as_stated (p : ItemProps.t) : string :=
  match ItemProps.accessibilityLabel p with
  | Some a => a
  | None => match ItemProps.label p with
            | Some l => l
            | None => EmptyString
            end
  end.

(** C9 as stated, for the child at [i] of the world [w]. *)
Definition accessibilityLabel_as_stated (w : World) (i : nat) : Prop :=
  forall child clone,
    Props.children (props w) !! i = Some child ->
    tree (exec render w) !! i = Some clone ->
    Clone.accessibilityLabel clone
    = label_as_stated (Child.props child)
        +:+ " " +:+ pretty (Z.of_nat i + 1)
        +:+ " out of " +:+ pretty (Z.of_nat (length (Props.children (props w)))).

(** The label of C9 as amended: an [accessibilityLabel] that is the empty
    string counts as none. *)
Definition label_amended (p : ItemProps.t) : string :=
  match ItemProps.accessibilityLabel p with
  | Some (String c a) => String c a
  | _ => match ItemProps.label p with
         | Some l => l
         | None => EmptyString
         end
  end.

(** ** Notions of the further properties *)

(** The updates that [componentDidUpdate] queues: the reset to index 0 when
    there are fewer children, then the move to a changed [selectedIndex],
    each unless the child at that index is ignored. *)
Definition requested (prevProps : Props.t) (prevState : State.t) (w : World)
  : list Update :=
  (if (childrenCount w <? Z.of_nat (length (Props.children prevProps)))
      && negb (isIgnored 0 w)
   then [mkUpdate (PatchCurrentIndex 0) (Some CbScrollToSelected)]
   else [])
  ++ (if negb (Props.selectedIndex (props w) =? State.currentIndex prevState)
         && negb (Props.selectedIndex prevProps =? Props.selectedIndex (props w))
         && negb (isIgnored (Props.selectedIndex (props w)) w)
      then [mkUpdate (PatchCurrentIndex (Props.selectedIndex (props w)))
                     (Some CbScrollToSelected)]
      else []).

(** The same props with another [selectedIndex]. *)
Definition withSelectedIndex (index : Z) (p : Props.t) : Props.t :=
  Props.mk (Props.minTabsForScroll p) index (Props.onChangeIndex p)
           (Props.onTabSelected p) (Props.containerWidth p) (Props.children p).

(** The same props with other children. *)
Definition withChildren (children : list Child.t) (p : Props.t) : Props.t :=
  Props.mk (Props.minTabsForScroll p) (Props.selectedIndex p) (Props.onChangeIndex p)
           (Props.onTabSelected p) (Props.containerWidth p) children.





(** The calls of host functions in the log, in order. *)
Definition isInvoke (e : Effect) : bool :=
  match e with
  | Invoke _ _ _ => true
  | ScrollTo _ _ _ => false
  end.

Definition hostCalls (w : World) : list Effect :=
  filter (fun e => isInvoke e = true) (effects w).

(** The calls of host functions made so far are [calls]. *)
Definition made (calls : list Effect) (w : World) : Prop :=
  hostCalls w = calls.

(** A single tab, 900 wide. *)
Definition oneTab : Props.t :=
  Props.mk None 0 (Some 1%nat) (Some 2%nat) None
    [ placed (item false "Home" 10%nat) 0 900 ].

(** No character of [s] is a space. *)
Fixpoint spaceless (s : string) : bool :=
  match s with
  | EmptyString => true
  | String c s' => negb (Ascii.eqb c " "%char) && spaceless s'
  end.

(** Two tabs with the same text. *)
Definition twoAlike : Props.t :=
  Props.mk None 0 None None None
    [ placed (item false "Tab" 10%nat) 0 100;
      placed (item false "Tab" 10%nat) 100 100 ].

(** ** The monad: unfolding and frame rules *)

Ltac munfold :=
  cbv [mbind mret M_bind M_ret bind ret get gets modify throw when emit exec] in *.

Section Frame.
Context (P : World -> Prop).

Lemma preserves_ret {A} (a : A) : preserves P (mret a).
Proof. intros w Hw. exact Hw. Qed.

Lemma preserves_throw {A} e : preserves P (@throw A e).
Proof. intros w Hw. exact Hw. Qed.

Lemma preserves_gets {A} (f : World -> A) : preserves P (gets f).
Proof. intros w Hw. exact Hw. Qed.

Lemma preserves_get : preserves P get.
Proof. intros w Hw. exact Hw. Qed.

Lemma preserves_bind {A B} (m : M A) (k : A -> M B) :
  preserves P m -> (forall a, preserves P (k a)) -> preserves P (m ≫= k).
Proof.
  intros Hm Hk w Hw. munfold. specialize (Hm w Hw).
  destruct (m w) as [[a|e] w']; simpl in *; [by apply Hk | done].
Qed.

Lemma preserves_modify f : (forall w, P w -> P (f w)) -> preserves P (modify f).
Proof. intros Hf w Hw. by apply Hf. Qed.

Lemma preserves_when b m : preserves P m -> preserves P (when b m).
Proof. intros Hm. destruct b; [done | apply preserves_ret]. Qed.

Lemma preserves_forM_ {A} (f : A -> M unit) l :
  (forall a, preserves P (f a)) -> preserves P (forM_ f l).
Proof.
  intros Hf. induction l as [|a l IH]; simpl.
  - apply preserves_ret.
  - apply preserves_bind; [apply Hf | intros _; apply IH].
Qed.
End Frame.

(** ** Rendering *)

Lemma js_assign_end {A} (v : A) (l : list (option A)) :
  js_assign (length l) v l = l ++ [Some v].
Proof.
  unfold js_assign. case_decide; [lia |].
  by rewrite Nat.sub_diag.
Qed.

Lemma attachRefs_eq (f : nat -> Child.t -> Clone.t) (l : list Child.t) w :
  (forall k c, Clone.refIndex (f k c) = (length (itemsRefs w) + k)%nat) ->
  forM_ attachRef (zip (imap f l) (mountedItem <$> l)) w
  = (Ret tt, set_itemsRefs (itemsRefs w ++ (Some ∘ mountedItem <$> l)) w).
Proof.
  revert f w. induction l as [|c l IH]; intros f w Hf.
  - simpl. destruct w; by rewrite app_nil_r.
  - simpl. munfold. unfold attachRef at 1. munfold. simpl.
    rewrite Hf, Nat.add_0_r, js_assign_end.
    rewrite IH.
    + destruct w; simpl. by rewrite <- app_assoc.
    + intros k c'. simpl. rewrite Hf, length_app. simpl. lia.
Qed.

Lemma cloneElement_ext w w' :
  props w = props w' -> state w = state w' -> cloneElement w = cloneElement w'.
Proof.
  intros Hp Hs. unfold cloneElement, shouldBeMarked, isIgnored, childrenCount.
  by rewrite Hp, Hs.
Qed.

Lemma render_eq w : render w = (Ret tt, rendered w).
Proof.
  unfold render, renderChildren. munfold. simpl.
  rewrite attachRefs_eq by (intros; reflexivity).
  unfold rendered. simpl.
  rewrite (cloneElement_ext _ w) by reflexivity.
  by destruct w.
Qed.

(** ** Worlds between two events *)

Lemma same_instance_refl w : same_instance w w.
Proof. by destruct w. Qed.

Lemma same_instance_trans w1 w2 w3 :
  same_instance w1 w2 -> same_instance w2 w3 -> same_instance w1 w3.
Proof.
  unfold same_instance. intros H12 H23. rewrite H23, H12. by destruct w1.
Qed.

Lemma rendered_consistent w : consistent (rendered w).
Proof.
  split; reflexivity.
Qed.

Lemma mount_settled p sw : settled (mount p sw).
Proof.
  unfold mount, exec. rewrite render_eq. simpl.
  split; [done | apply rendered_consistent].
Qed.

(** [componentDidUpdate] after a render that kept the props does nothing. *)
Lemma componentDidUpdate_same w prevState :
  componentDidUpdate (props w) prevState w = (Ret tt, w).
Proof.
  unfold componentDidUpdate, childrenCount. munfold.
  rewrite Z.ltb_irrefl, Z.eqb_refl. simpl.
  by rewrite andb_false_r.
Qed.

(** [scrollToSelected] touches the effect log only. *)
Lemma scrollToSelected_same_instance animated w :
  same_instance w (scrollToSelected animated w).2.
Proof.
  unfold scrollToSelected, scrollTo. munfold.
  repeat case_match; simpl; by destruct w.
Qed.

Lemma runCallbacks_same_instance cbs w :
  same_instance w (forM_ runCallback cbs w).2.
Proof.
  revert w. induction cbs as [|[] cbs IH]; intros w; simpl.
  - apply same_instance_refl.
  - munfold. pose proof (scrollToSelected_same_instance true w) as Hs.
    destruct (scrollToSelected true w) as [[[]|e] w']; simpl in *; [| done].
    eapply same_instance_trans; [exact Hs | apply IH].
Qed.

Lemma flush_idle fuel w : updates w = [] -> flush fuel w = (Ret tt, w).
Proof. intros Hu. destruct fuel; simpl; munfold; by rewrite Hu. Qed.

(** One round of [flush] is enough when the props did not change: the commit
    runs the callbacks of the merged updates and queues nothing. *)
Lemma flush_eq fuel w :
  updates w <> [] ->
  flush (S fuel) w = forM_ runCallback (omap callback (updates w)) (commit w).
Proof.
  intros Hu. simpl. munfold.
  destruct (updates w) as [|u us] eqn:Eu; [done |].
  rewrite render_eq. simpl.
  change (props w) with
    (props (rendered (set_updates [] (set_state
       (foldl applyPatch (applyPatch (state w) (patch u)) (patch <$> us)) w)))) at 1.
  rewrite componentDidUpdate_same.
  unfold commit. rewrite Eu. simpl.
  match goal with |- context [forM_ runCallback ?l ?w0] =>
    pose proof (runCallbacks_same_instance l w0) as Hs;
    destruct (forM_ runCallback l w0) as [[[]|e] w'] eqn:Er end;
    simpl in *; [| done].
  apply flush_idle. by rewrite Hs.
Qed.

Arguments flush : simpl never.

(** ** The auto-scroll step *)

Lemma js_index_nat {A} (l : list A) (i : Z) :
  0 <= i -> js_index l i = l !! Z.to_nat i.
Proof. intros Hi. unfold js_index. by rewrite (proj2 (Z.ltb_ge i 0)). Qed.

Lemma js_index_of_nat {A} (l : list A) (i : nat) :
  js_index l (Z.of_nat i) = l !! i.
Proof. rewrite js_index_nat by lia. by rewrite Nat2Z.id. Qed.

(** No handle at the current index: reading [getLayout] of [undefined]. *)
Lemma scrollToSelected_no_ref animated w :
  mjoin (js_index (itemsRefs w) (State.currentIndex (state w))) = None ->
  scrollToSelected animated w = (Throw TypeError, w).
Proof. intros Hr. unfold scrollToSelected. munfold. by rewrite Hr. Qed.

(** A handle whose item was not measured yet: nothing happens. *)
Lemma scrollToSelected_no_layout animated w childRef :
  mjoin (js_index (itemsRefs w) (State.currentIndex (state w))) = Some childRef ->
  ItemRef.getLayout childRef = None ->
  scrollToSelected animated w = (Ret tt, w).
Proof. intros Hr Hl. unfold scrollToSelected. munfold. by rewrite Hr, Hl. Qed.

(** No overflow: nothing happens. *)
Lemma scrollToSelected_no_overflow animated w childRef :
  mjoin (js_index (itemsRefs w) (State.currentIndex (state w))) = Some childRef ->
  hasOverflow w = false ->
  scrollToSelected animated w = (Ret tt, w).
Proof.
  intros Hr Ho. unfold scrollToSelected. munfold. rewrite Hr, Ho.
  by destruct (ItemRef.getLayout childRef).
Qed.



(** C8, at a failing input. Three tabs are mounted and the parent renders
    the tab bar again without children: [componentDidUpdate] sees fewer
    children, [updateIndicator(0)] queues the update, and its callback
    [scrollToSelected] reads [getLayout] of the missing [itemsRefs[0]]. *)
Theorem scrollToSelected_missing_ref_throws :
  (handle (ReceiveProps (Props.mk None 0 (Some 1%nat) (Some 2%nat) None []))
          (mount threeTabs 375)).1
  = Throw TypeError.
Proof. vm_compute. reflexivity. Qed.

(** ** The render output *)

Lemma tree_render w :
  tree (exec render w) = imap (cloneElement w) (Props.children (props w)).
Proof. unfold exec. by rewrite render_eq. Qed.

Lemma isIgnored_child w (i : nat) child :
  Props.children (props w) !! i = Some child ->
  isIgnored (Z.of_nat i) w = ItemProps.ignore (Child.props child).
Proof. intros Hc. unfold isIgnored. by rewrite js_index_of_nat, Hc. Qed.

(** C7. In the tree that a render mounts, the clone of the child at [i] is
    marked selected exactly when [i] is the current index, the child is not
    ignored and there is more than one child; with a single child no clone
    is marked selected, whatever the current index. *)
Theorem selected_iff_current_not_ignored_many (w : World) :
  (forall (i : nat) (child : Child.t),
      Props.children (props w) !! i = Some child ->
      exists clone,
        tree (exec render w) !! i = Some clone
        /\ (Clone.selected clone = true
            <-> State.currentIndex (state w) = Z.of_nat i
                /\ ItemProps.ignore (Child.props child) = false
                /\ (1 < length (Props.children (props w)))%nat))
  /\ (length (Props.children (props w)) = 1%nat ->
      Forall (fun clone => Clone.selected clone = false) (tree (exec render w))).
Proof.
  split.
  - intros i child Hc. exists (cloneElement w i child). split.
    + by rewrite tree_render, list_lookup_imap, Hc.
    + simpl. unfold shouldBeMarked, childrenCount.
      rewrite (isIgnored_child _ _ _ Hc).
      rewrite !andb_true_iff, negb_true_iff, Z.eqb_eq.
      rewrite <- Zgt_is_gt_bool. intuition lia.
  - intros Hone. rewrite tree_render. apply Forall_forall.
    intros clone (i & child & -> & _)%elem_of_lookup_imap.
    simpl. unfold shouldBeMarked, childrenCount. rewrite Hone.
    by rewrite andb_false_r.
Qed.

Lemma selected_iff_current_not_ignored_many_witness :
  exists clone,
    tree (exec render (mount threeTabs 375)) !! 0%nat = Some clone
    /\ (Clone.selected clone = true
        <-> State.currentIndex (state (mount threeTabs 375)) = 0
            /\ ItemProps.ignore (item false "Home" 10%nat) = false
            /\ (1 < length (Props.children threeTabs))%nat).
Proof.
  exact (proj1 (selected_iff_current_not_ignored_many (mount threeTabs 375))
           0%nat (placed (item false "Home" 10%nat) 0 200) eq_refl).
Defined.

(** C9 fails as stated: an empty [accessibilityLabel] is falsy, so the
    [label] "Home" is announced, not the empty string. *)
Lemma accessibilityLabel_as_stated_fails :
  ~ accessibilityLabel_as_stated (mount emptyAccessibilityLabel 375) 0.
Proof.
  intros H. specialize (H _ _ eq_refl eq_refl). vm_compute in H. discriminate H.
Qed.

Lemma accessLabel_amended p : js_string (accessLabel p) = label_amended p.
Proof.
  unfold accessLabel, label_amended, js_or.
  destruct p as [ig [[|c l]|] [[|c' a]|] h]; reflexivity.
Qed.

(** C9, amended. The clone of the child at 0-based position [i] of [n]
    children gets the accessibility label "<label> {i+1} out of {n}", where
    <label> is the child's own [accessibilityLabel] if it has one that is
    not the empty string, else its [label] if it has one, else the empty
    string. *)
Theorem accessibilityLabel_position_of_total (w : World) (i : nat) (child : Child.t) :
  Props.children (props w) !! i = Some child ->
  exists clone,
    tree (exec render w) !! i = Some clone
    /\ Clone.accessibilityLabel clone
       = label_amended (Child.props child)
           +:+ " " +:+ pretty (Z.of_nat i + 1)
           +:+ " out of " +:+ pretty (Z.of_nat (length (Props.children (props w)))).
Proof.
  intros Hc. exists (cloneElement w i child). split.
  - by rewrite tree_render, list_lookup_imap, Hc.
  - simpl. by rewrite accessLabel_amended.
Qed.

Lemma accessibilityLabel_position_of_total_witness :
  exists clone,
    tree (exec render (mount threeTabs 375)) !! 2%nat = Some clone
    /\ Clone.accessibilityLabel clone = "Cart 3 out of 3"%string.
Proof.
  exact (accessibilityLabel_position_of_total (mount threeTabs 375) 2%nat
           (placed (item false "Cart" 12%nat) 400 200) eq_refl).
Defined.

(** ** The threshold of scroll mode *)





(** ** What the methods leave alone *)

Ltac frame_step :=
  lazymatch goal with
  | |- preserves _ (mret _) => apply preserves_ret
  | |- preserves _ (mbind _ _) => apply preserves_bind; [| intros ?]
  | |- preserves _ get => apply preserves_get
  | |- preserves _ (gets _) => apply preserves_gets
  | |- preserves _ (throw _) => apply preserves_throw
  | |- preserves _ (when _ _) => apply preserves_when
  | |- preserves _ (forM_ _ _) => apply preserves_forM_; intros ?
  | |- preserves _ (modify _) => apply preserves_modify; intros ? ?
  | |- preserves _ (match ?x with _ => _ end) => destruct x eqn:?
  end.

Ltac frame := repeat frame_step.

Section Stable.
Context (P : World -> Prop) (HP : stable P).

Lemma stable_emit e : preserves P (emit e).
Proof. intros w Hw. by apply (HP w). Qed.

Lemma stable_invoke h name args : preserves P (invoke h name args).
Proof. destruct h; [apply stable_emit | apply preserves_ret]. Qed.

Lemma stable_scrollToSelected animated : preserves P (scrollToSelected animated).
Proof. unfold scrollToSelected, scrollTo. frame; apply stable_emit. Qed.

Lemma stable_runCallback cb : preserves P (runCallback cb).
Proof. destruct cb. apply stable_scrollToSelected. Qed.

Lemma stable_setTimeout t : preserves P (setTimeout t).
Proof. intros w Hw. by apply (HP w). Qed.

Lemma stable_runTask t : preserves P (runTask t).
Proof.
  unfold runTask, onChangeIndex, onTabSelected. frame; apply stable_invoke.
Qed.

Lemma stable_onScroll offset : preserves P (onScroll offset).
Proof. intros w Hw. by apply (HP w). Qed.
End Stable.

Lemma scroll_flag_stable b : stable (scroll_flag b).
Proof. intros w w' _ Hs Hu _ _ [H1 H2]. split; congruence. Qed.

Lemma scroll_flag_setState b p cb :
  p <> PatchScrollEnabled (negb b) -> preserves (scroll_flag b) (setState p cb).
Proof.
  intros Hp w [Hs Hq]. split; [exact Hs |].
  simpl. apply Forall_app. split; [exact Hq | by apply Forall_singleton].
Qed.

Lemma scroll_flag_updateIndicator b index :
  preserves (scroll_flag b) (updateIndicator index).
Proof. unfold updateIndicator. frame. by apply scroll_flag_setState. Qed.

Lemma scroll_flag_onItemPress b index p :
  preserves (scroll_flag b) (onItemPress index p).
Proof.
  unfold onItemPress. frame.
  - apply scroll_flag_updateIndicator.
  - apply stable_setTimeout, scroll_flag_stable.
Qed.

Lemma scroll_flag_componentDidUpdate b prevProps prevState :
  preserves (scroll_flag b) (componentDidUpdate prevProps prevState).
Proof. unfold componentDidUpdate. frame; apply scroll_flag_updateIndicator. Qed.

Lemma scroll_flag_render b : preserves (scroll_flag b) render.
Proof. intros w Hw. by rewrite render_eq. Qed.

Lemma foldl_applyPatch_scrollEnabled b s (ps : list Patch) :
  State.scrollEnabled s = b ->
  Forall (fun p => p <> PatchScrollEnabled (negb b)) ps ->
  State.scrollEnabled (foldl applyPatch s ps) = b.
Proof.
  revert s. induction ps as [|p ps IH]; intros s Hs Hps; [done |].
  apply Forall_cons in Hps as [Hp Hps]. simpl. apply IH; [| done].
  destruct p as [i|e]; simpl; [done |].
  destruct e, b; simpl in *; congruence.
Qed.

Lemma scroll_flag_flush b fuel : preserves (scroll_flag b) (flush fuel).
Proof.
  induction fuel as [|fuel IH]; intros w Hw.
  - unfold flush. munfold. by destruct (updates w).
  - destruct (updates w) as [|u us] eqn:Eu.
    + by rewrite flush_idle.
    + rewrite flush_eq by (by rewrite Eu).
      apply preserves_forM_.
      * intros cb. apply stable_runCallback, scroll_flag_stable.
      * destruct Hw as [Hs Hq]. split; [| by apply Forall_nil].
        simpl. apply foldl_applyPatch_scrollEnabled; [done |].
        by apply Forall_fmap.
Qed.

(** Every event but a content-size change keeps the scroll flag. *)
Lemma scroll_flag_handle b e :
  (forall width, e <> ContentSizeChange width) ->
  preserves (scroll_flag b) (handle e).
Proof.
  intros He. destruct e; simpl; [| | by destruct (He width) | | |].
  - frame; [apply scroll_flag_onItemPress | apply scroll_flag_flush].
  - apply stable_onScroll, scroll_flag_stable.
  - unfold receiveProps. frame.
    + assumption.
    + apply scroll_flag_render.
    + apply scroll_flag_componentDidUpdate.
    + apply scroll_flag_flush.
  - frame; [assumption | apply stable_runTask, scroll_flag_stable].
  - apply preserves_modify. by intros w [Hs Hq].
Qed.



(** ** Scroll mode *)

Lemma same_instance_state w w' : same_instance w w' -> state w' = state w.
Proof. intros ->. reflexivity. Qed.


(** The world after [flush] is the commit of the queued updates, up to the
    effects of the callbacks. *)
Lemma flush_same_instance fuel w :
  updates w <> [] -> same_instance (commit w) (flush (S fuel) w).2.
Proof. intros Hu. rewrite flush_eq by done. apply runCallbacks_same_instance. Qed.





Lemma scroll_flag_off_contentSizeChange width w :
  width <= scrollContainerWidth w ->
  scroll_flag false w ->
  scroll_flag false (handle (ContentSizeChange width) w).2.
Proof.
  intros Hw Hflag. simpl.
  assert (Hh : (onContentSizeChange width w).1 = Ret tt
               /\ scroll_flag false (onContentSizeChange width w).2).
  { unfold onContentSizeChange, setState. munfold.
    destruct (bool_decide (scrollContentWidth w = Some width)); simpl; [done |].
    change (hasOverflow (set_scrollContentWidth (Some width) w))
      with (width >? scrollContainerWidth w).
    destruct (Z.gtb_spec width (scrollContainerWidth w)); [lia |]. done. }
  munfold. destruct (onContentSizeChange width w) as [[[]|e] w1]; simpl in *;
    [| by destruct Hh].
  apply scroll_flag_flush, Hh.
Qed.

Lemma scroll_flag_off_run es w :
  scroll_flag false w -> never_wider es w -> scroll_flag false (run es w).2.
Proof.
  revert w. induction es as [|e es IH]; intros w Hflag Hes; [done |].
  destruct Hes as [Hfit Hes]. simpl. munfold.
  assert (Hstep : scroll_flag false (handle e w).2).
  { destruct e; try (apply scroll_flag_handle; [discriminate | done]).
    by apply scroll_flag_off_contentSizeChange. }
  destruct (handle e w) as [[[]|err] w1]; simpl in *; [by apply IH | done].
Qed.

(** C5. From mounting on, along any run of events in which every
    content-size change reports a width that is at most the container width
    of that moment, [scrollEnabled] keeps its initial value, false. *)
Theorem never_wider_never_scrolls (p : Props.t) (sw : Z) (es : list Event) :
  never_wider es (mount p sw) ->
  State.scrollEnabled (state (exec (run es) (mount p sw))) = false.
Proof.
  intros Hes. apply (scroll_flag_off_run es (mount p sw)); [| done].
  unfold mount, exec. rewrite render_eq. split; [done | by simpl].
Qed.

Lemma never_wider_never_scrolls_witness :
  State.scrollEnabled
    (state (exec (run [ContentSizeChange 300; Press 2; ContentSizeChange 375])
                 (mount threeTabs 375)))
  = false.
Proof.
  apply (never_wider_never_scrolls threeTabs 375
           [ContentSizeChange 300; Press 2; ContentSizeChange 375]).
  vm_compute. repeat split; congruence.
Defined.

(** ** Pressing a tab *)

Lemma set_effects_id w : set_effects (effects w) w = w.
Proof. by destruct w. Qed.

Lemma invoke_eq h name args w :
  invoke h name args w = (Ret tt, set_effects (effects w ++ called h name args) w).
Proof.
  destruct h; simpl; [done |]. munfold. by rewrite app_nil_r, set_effects_id.
Qed.

Lemma runTask_eq t w :
  runTask t w
  = (Ret tt,
     set_effects
       (effects w
          ++ (if ItemProps.ignore (taskProps t) then []
              else called (Props.onChangeIndex (props w)) "onChangeIndex" [taskIndex t])
          ++ called (Props.onTabSelected (props w)) "onTabSelected" [taskIndex t]
          ++ called (ItemProps.onPress (taskProps t)) "onPress" []) w).
Proof.
  unfold runTask, onChangeIndex, onTabSelected. munfold.
  destruct (ItemProps.ignore (taskProps t)); simpl;
    rewrite !invoke_eq; simpl; by rewrite <- ?app_assoc.
Qed.

Lemma handle_timeout t ts w :
  timers w = t :: ts -> handle TimerFires w = runTask t (set_timers ts w).
Proof. intros Ht. simpl. munfold. by rewrite Ht. Qed.

Lemma settled_tree_lookup w (i : nat) child :
  settled w ->
  Props.children (props w) !! i = Some child ->
  tree w !! i = Some (cloneElement w i child).
Proof. intros (_ & Ht & _) Hc. by rewrite Ht, list_lookup_imap, Hc. Qed.

Lemma handle_press w (i : nat) child :
  settled w ->
  Props.children (props w) !! i = Some child ->
  handle (Press i) w
  = (onItemPress (Z.of_nat i) (Child.props child);; flush NESTED_UPDATE_LIMIT) w.
Proof.
  intros Hw Hc. simpl. munfold. by rewrite (settled_tree_lookup _ _ _ Hw Hc).
Qed.

Lemma handle_press_ignored w (i : nat) child :
  settled w ->
  Props.children (props w) !! i = Some child ->
  ItemProps.ignore (Child.props child) = true ->
  handle (Press i) w
  = (Ret tt, set_timers (timers w ++ [mkTask (Z.of_nat i) (Child.props child)]) w).
Proof.
  intros Hw Hc Hi. rewrite (handle_press _ _ _ Hw Hc).
  unfold onItemPress, updateIndicator, setTimeout. munfold.
  rewrite (isIgnored_child _ _ _ Hc), Hi. simpl.
  apply flush_idle. apply Hw.
Qed.

Lemma handle_press_not_ignored w (i : nat) child :
  settled w ->
  Props.children (props w) !! i = Some child ->
  ItemProps.ignore (Child.props child) = false ->
  handle (Press i) w = scrollToSelected true (selecting i (Child.props child) w).
Proof.
  intros Hw Hc Hi. rewrite (handle_press _ _ _ Hw Hc).
  unfold onItemPress, updateIndicator, setTimeout, setState. munfold.
  rewrite (isIgnored_child _ _ _ Hc), Hi. simpl.
  destruct Hw as [Hu _]. rewrite Hu. simpl.
  change NESTED_UPDATE_LIMIT with (S 49). rewrite flush_eq by done.
  simpl. munfold.
  by destruct (scrollToSelected true _) as [[[]|e] w'].
Qed.

Lemma scrollToSelected_returns animated w childRef :
  mjoin (js_index (itemsRefs w) (State.currentIndex (state w))) = Some childRef ->
  (scrollToSelected animated w).1 = Ret tt.
Proof.
  intros Hr. unfold scrollToSelected, scrollTo. munfold. rewrite Hr.
  repeat case_match; reflexivity.
Qed.

(** [scrollToSelected] calls no function of the host: it can only add one
    [scrollTo] to the log. *)
Lemma scrollToSelected_effects animated w :
  exists es,
    effects (scrollToSelected animated w).2 = effects w ++ es
    /\ Forall (fun e => exists x, e = ScrollTo x 0 animated) es.
Proof.
  unfold scrollToSelected, scrollTo. munfold.
  repeat case_match; simpl;
    first [ by exists []; rewrite app_nil_r
          | eexists [_]; split; [reflexivity | apply Forall_singleton; eauto] ].
Qed.

(** C2. Pressing the tab at a valid index [i] whose child is not ignored
    sets [currentIndex] to [i] within the press itself, before any function
    of the host is called; the zero-delay timer then calls [onChangeIndex(i)],
    [onTabSelected(i)] and the item's own [onPress], in that order. *)
Theorem press_selects_then_notifies (w : World) (i : nat) (child : Child.t) :
  settled w ->
  timers w = [] ->
  Props.children (props w) !! i = Some child ->
  ItemProps.ignore (Child.props child) = false ->
  let pressed := handle (Press i) w in
  let fired := handle TimerFires pressed.2 in
  pressed.1 = Ret tt
  /\ State.currentIndex (state pressed.2) = Z.of_nat i
  /\ (forall name f args,
         Invoke name f args ∈ effects pressed.2 -> Invoke name f args ∈ effects w)
  /\ fired.1 = Ret tt
  /\ state fired.2 = state pressed.2
  /\ effects fired.2
     = effects pressed.2
         ++ called (Props.onChangeIndex (props w)) "onChangeIndex" [Z.of_nat i]
         ++ called (Props.onTabSelected (props w)) "onTabSelected" [Z.of_nat i]
         ++ called (ItemProps.onPress (Child.props child)) "onPress" [].
Proof.
  intros Hw Ht Hc Hi pressed fired. subst fired pressed.
  rewrite (handle_press_not_ignored _ _ _ Hw Hc Hi).
  set (w1 := selecting i (Child.props child) w).
  pose proof (scrollToSelected_same_instance true w1) as Hs.
  destruct (scrollToSelected_effects true w1) as (es & Hes & Hscroll).
  assert (Href : mjoin (js_index (itemsRefs w1) (State.currentIndex (state w1)))
                 = Some (mountedItem child)).
  { subst w1. simpl. by rewrite js_index_of_nat, list_lookup_fmap, Hc. }
  pose proof (scrollToSelected_returns true w1 _ Href) as Hret.
  set (w2 := (scrollToSelected true w1).2) in *.
  assert (Htimers : timers w2 = [mkTask (Z.of_nat i) (Child.props child)]).
  { rewrite Hs. subst w1. simpl. by rewrite Ht. }
  rewrite (handle_timeout _ _ _ Htimers), runTask_eq. simpl. rewrite Hi.
  repeat split.
  - exact Hret.
  - by rewrite Hs.
  - intros name f args. rewrite Hes. intros [Hin|Hin]%elem_of_app; [exact Hin |].
    rewrite Forall_forall in Hscroll. by destruct (Hscroll _ Hin).
  - by rewrite Hs.
Qed.

Lemma press_selects_then_notifies_witness :
  let pressed := handle (Press 2) (mount threeTabs 375) in
  let fired := handle TimerFires pressed.2 in
  pressed.1 = Ret tt
  /\ State.currentIndex (state pressed.2) = 2
  /\ (forall name f args,
         Invoke name f args ∈ effects pressed.2 -> Invoke name f args ∈ [])
  /\ fired.1 = Ret tt
  /\ state fired.2 = state pressed.2
  /\ effects fired.2
     = effects pressed.2
         ++ [Invoke "onChangeIndex" 1%nat [2]; Invoke "onTabSelected" 2%nat [2];
             Invoke "onPress" 12%nat []].
Proof.
  exact (press_selects_then_notifies (mount threeTabs 375) 2
           (placed (item false "Cart" 12%nat) 400 200)
           (mount_settled threeTabs 375) eq_refl eq_refl eq_refl).
Defined.

(** C1 fails as stated: the ignored middle tab of [threeTabs] is pressed
    while the first tab is current, and the current index stays 0. *)
Lemma press_ignored_as_stated_fails :
  ~ press_ignored_as_stated (mount threeTabs 375) 1.
Proof.
  intros H.
  destruct (H _ (mount_settled threeTabs 375) eq_refl eq_refl eq_refl) as [Hi _].
  vm_compute in Hi. discriminate Hi.
Qed.

(** C1, amended. Pressing the tab at a valid index [i] whose child is
    ignored leaves the state, [currentIndex] included, as it was, does not
    call [onChangeIndex], and still calls [onTabSelected(i)], followed by the
    item's own [onPress], once the zero-delay timer fires. *)
Theorem press_ignored_keeps_index (w : World) (i : nat) (child : Child.t) :
  settled w ->
  timers w = [] ->
  Props.children (props w) !! i = Some child ->
  ItemProps.ignore (Child.props child) = true ->
  let pressed := handle (Press i) w in
  let fired := handle TimerFires pressed.2 in
  pressed.1 = Ret tt
  /\ state pressed.2 = state w
  /\ effects pressed.2 = effects w
  /\ fired.1 = Ret tt
  /\ state fired.2 = state w
  /\ (forall f args,
         Invoke "onChangeIndex" f args ∈ effects fired.2 ->
         Invoke "onChangeIndex" f args ∈ effects w)
  /\ effects fired.2
     = effects w
         ++ called (Props.onTabSelected (props w)) "onTabSelected" [Z.of_nat i]
         ++ called (ItemProps.onPress (Child.props child)) "onPress" [].
Proof.
  intros Hw Ht Hc Hi pressed fired. subst fired pressed.
  rewrite (handle_press_ignored _ _ _ Hw Hc Hi). cbn [fst snd].
  rewrite (handle_timeout (mkTask (Z.of_nat i) (Child.props child)) [])
    by (simpl; by rewrite Ht).
  rewrite runTask_eq. simpl. rewrite Hi. simpl.
  repeat split.
  intros f args [Hin|Hin]%elem_of_app; [exact Hin |].
  exfalso. apply elem_of_app in Hin as [Hin|Hin].
  - destruct (Props.onTabSelected (props w)); simpl in Hin;
      [apply list_elem_of_singleton in Hin; discriminate Hin
      | by apply elem_of_nil in Hin].
  - destruct (ItemProps.onPress (Child.props child)); simpl in Hin;
      [apply list_elem_of_singleton in Hin; discriminate Hin
      | by apply elem_of_nil in Hin].
Qed.

Lemma press_ignored_keeps_index_witness :
  let pressed := handle (Press 1) (mount threeTabs 375) in
  let fired := handle TimerFires pressed.2 in
  pressed.1 = Ret tt
  /\ state pressed.2 = State.mk false 0
  /\ effects pressed.2 = []
  /\ fired.1 = Ret tt
  /\ state fired.2 = State.mk false 0
  /\ (forall f args,
         Invoke "onChangeIndex" f args ∈ effects fired.2 ->
         Invoke "onChangeIndex" f args ∈ [])
  /\ effects fired.2 = [Invoke "onTabSelected" 2%nat [1]; Invoke "onPress" 11%nat []].
Proof.
  exact (press_ignored_keeps_index (mount threeTabs 375) 1
           (placed (item true "Search" 11%nat) 200 200)
           (mount_settled threeTabs 375) eq_refl eq_refl eq_refl).
Defined.

(** ** Fewer children *)

(** C6 fails as stated: the first tab is removed while the last one is
    current; the tab now at index 0 is ignored, and the current index
    stays 2. *)
Lemma fewer_children_as_stated_fails :
  ~ fewer_children_as_stated lastSelected twoTabs.
Proof.
  intros H. assert (Hi : 2 = 0); [| discriminate Hi].
  apply H.
  - vm_compute. repeat split; reflexivity.
  - vm_compute. lia.
Qed.

Lemma componentDidUpdate_fewer prevProps prevState w :
  (length (Props.children (props w)) < length (Props.children prevProps))%nat ->
  isIgnored 0 w = false ->
  Props.selectedIndex (props w) = Props.selectedIndex prevProps
  \/ Props.selectedIndex (props w) = State.currentIndex prevState ->
  componentDidUpdate prevProps prevState w
  = (Ret tt,
     set_updates (updates w ++ [mkUpdate (PatchCurrentIndex 0) (Some CbScrollToSelected)]) w).
Proof.
  intros Hlen Hig Hsel.
  unfold componentDidUpdate, updateIndicator, setState, childrenCount. munfold.
  rewrite (proj2 (Z.ltb_lt _ _)) by lia. simpl. rewrite Hig. simpl.
  match goal with |- context [negb ?a && negb ?b] =>
    replace (negb a && negb b) with false; [done |] end.
  symmetry. apply andb_false_iff.
  destruct Hsel as [Hsel|Hsel]; [right | left];
    apply negb_false_iff, Z.eqb_eq; congruence.
Qed.

(** C6, amended. When an update leaves fewer children than before, the
    child now at index 0 is not ignored, and the [selectedIndex] prop is
    unchanged or equal to the current index, [currentIndex] is reset to 0. *)
Theorem fewer_children_resets_indicator (w : World) (nextProps : Props.t) :
  settled w ->
  (length (Props.children nextProps) < length (Props.children (props w)))%nat ->
  (forall child,
      Props.children nextProps !! 0%nat = Some child ->
      ItemProps.ignore (Child.props child) = false) ->
  Props.selectedIndex nextProps = Props.selectedIndex (props w)
  \/ Props.selectedIndex nextProps = State.currentIndex (state w) ->
  State.currentIndex (state (exec (handle (ReceiveProps nextProps)) w)) = 0.
Proof.
  intros [Hu _] Hlen Hfirst Hsel. unfold exec, handle, receiveProps. munfold.
  rewrite render_eq.
  rewrite componentDidUpdate_fewer; [| done | | done].
  - simpl. rewrite Hu. simpl.
    match goal with |- context [flush _ ?w1] =>
      pose proof (flush_same_instance 49 w1 ltac:(done)) as Hs end.
    change NESTED_UPDATE_LIMIT with (S 49).
    by rewrite (same_instance_state _ _ Hs).
  - unfold isIgnored. simpl. change 0 with (Z.of_nat 0). rewrite js_index_of_nat.
    destruct (Props.children nextProps !! 0%nat) as [child|] eqn:Hc; [| done].
    by apply Hfirst.
Qed.

Lemma fewer_children_resets_indicator_witness :
  State.currentIndex (state lastSelected) = 2
  /\ State.currentIndex
       (state (exec (handle (ReceiveProps firstTwoTabs)) lastSelected)) = 0.
Proof.
  split; [reflexivity |].
  apply (fewer_children_resets_indicator lastSelected firstTwoTabs).
  - vm_compute. repeat split; reflexivity.
  - vm_compute. lia.
  - intros child Hc. vm_compute in Hc. by injection Hc as <-.
  - left. reflexivity.
Defined.

(** ** Every world between two events is settled *)












(** ** New props *)

Lemma set_updates_id w : set_updates (updates w) w = w.
Proof. by destruct w. Qed.

Lemma componentDidUpdate_eq prevProps prevState w :
  componentDidUpdate prevProps prevState w
  = (Ret tt, set_updates (updates w ++ requested prevProps prevState w) w).
Proof.
  unfold componentDidUpdate, requested, updateIndicator, setState. munfold.
  destruct (childrenCount w <? Z.of_nat (length (Props.children prevProps)));
    destruct (isIgnored 0 w) eqn:E0; simpl; rewrite ?E0; simpl;
    destruct (negb (Props.selectedIndex (props w) =? State.currentIndex prevState)
              && negb (Props.selectedIndex prevProps =? Props.selectedIndex (props w)));
    simpl;
    change (isIgnored (Props.selectedIndex (props w)) (set_updates _ w))
      with (isIgnored (Props.selectedIndex (props w)) w);
    destruct (isIgnored (Props.selectedIndex (props w)) w); simpl;
    rewrite <- ?app_assoc, ?app_nil_r, ?set_updates_id; try reflexivity;
    by destruct w.
Qed.

(** What new props do to a settled tab bar: render, then, if
    [componentDidUpdate] asked for a move of the indicator, one more render
    with the moved indicator and the callbacks of the moves. *)
Lemma handle_receiveProps nextProps w :
  settled w ->
  let w1 := rendered (set_props nextProps w) in
  let us := requested (props w) (state w) w1 in
  handle (ReceiveProps nextProps) w
  = match us with
    | [] => (Ret tt, w1)
    | _ => forM_ runCallback (omap callback us) (commit (set_updates us w1))
    end.
Proof.
  intros [Hu _] w1 us. unfold handle, receiveProps. munfold.
  rewrite render_eq, componentDidUpdate_eq. fold w1.
  change (updates w1) with (updates w). rewrite Hu. simpl. fold us.
  destruct us as [|u us'] eqn:Eus.
  - rewrite flush_idle by done.
    replace (set_updates [] w1) with w1; [done |].
    rewrite <- (set_updates_id w1) at 1. change (updates w1) with (updates w).
    by rewrite Hu.
  - change NESTED_UPDATE_LIMIT with (S 49). by rewrite flush_eq.
Qed.


Lemma runCallbacks_throws cb cbs w :
  mjoin (js_index (itemsRefs w) (State.currentIndex (state w))) = None ->
  forM_ runCallback (cb :: cbs) w = (Throw TypeError, w).
Proof.
  intros Hr. destruct cb. simpl. munfold.
  by rewrite (scrollToSelected_no_ref true w Hr).
Qed.

(** The handle that a render stores for an index: that of the child there. *)
Lemma rendered_ref w (index : Z) :
  mjoin (js_index (itemsRefs (rendered w)) index)
  = mountedItem <$> js_index (Props.children (props w)) index.
Proof.
  unfold js_index. simpl. destruct (index <? 0); [done |].
  rewrite list_lookup_fmap. by destruct (Props.children (props w) !! Z.to_nat index).
Qed.

Lemma requested_moves w nextProps :
  Props.selectedIndex nextProps <> Props.selectedIndex (props w) ->
  Props.selectedIndex nextProps <> State.currentIndex (state w) ->
  isIgnored (Props.selectedIndex nextProps) (set_props nextProps w) = false ->
  exists pre,
    requested (props w) (state w) (rendered (set_props nextProps w))
    = pre ++ [mkUpdate (PatchCurrentIndex (Props.selectedIndex nextProps))
                       (Some CbScrollToSelected)]
    /\ (pre = [] \/ pre = [mkUpdate (PatchCurrentIndex 0) (Some CbScrollToSelected)]).
Proof.
  intros Hsel Hcur Hig. unfold requested.
  change (isIgnored (Props.selectedIndex (props (rendered (set_props nextProps w))))
            (rendered (set_props nextProps w)))
    with (isIgnored (Props.selectedIndex nextProps) (set_props nextProps w)).
  change (Props.selectedIndex (props (rendered (set_props nextProps w))))
    with (Props.selectedIndex nextProps).
  rewrite Hig.
  rewrite (proj2 (Z.eqb_neq _ _)) by done.
  rewrite (proj2 (Z.eqb_neq _ _)) by congruence.
  simpl. eexists. split; [reflexivity |].
  case_match; auto.
Qed.

Lemma requested_stays w nextProps :
  Props.selectedIndex nextProps = Props.selectedIndex (props w)
  \/ Props.selectedIndex nextProps = State.currentIndex (state w) ->
  requested (props w) (state w) (rendered (set_props nextProps w))
  = if (Z.of_nat (length (Props.children nextProps))
          <? Z.of_nat (length (Props.children (props w))))
       && negb (isIgnored 0 (set_props nextProps w))
    then [mkUpdate (PatchCurrentIndex 0) (Some CbScrollToSelected)]
    else [].
Proof.
  intros Hsel. unfold requested.
  change (Props.selectedIndex (props (rendered (set_props nextProps w))))
    with (Props.selectedIndex nextProps).
  replace (negb (Props.selectedIndex nextProps =? State.currentIndex (state w))
           && negb (Props.selectedIndex (props w) =? Props.selectedIndex nextProps))
    with false.
  - simpl. by rewrite app_nil_r.
  - symmetry. apply andb_false_iff.
    destruct Hsel as [Hsel|Hsel]; [right | left];
      apply negb_false_iff, Z.eqb_eq; congruence.
Qed.

(** X1. New props whose [selectedIndex] differs from the previous prop and
    from the current index, and points at no ignored child, move the
    indicator there (also when the same update removes children); the scroll
    flag is not touched. *)
Theorem selectedIndex_change_moves_indicator (w : World) (nextProps : Props.t) :
  settled w ->
  Props.selectedIndex nextProps <> Props.selectedIndex (props w) ->
  Props.selectedIndex nextProps <> State.currentIndex (state w) ->
  isIgnored (Props.selectedIndex nextProps) (set_props nextProps w) = false ->
  let w' := exec (handle (ReceiveProps nextProps)) w in
  State.currentIndex (state w') = Props.selectedIndex nextProps
  /\ State.scrollEnabled (state w') = State.scrollEnabled (state w).
Proof.
  intros Hw Hsel Hcur Hig w'. subst w'. unfold exec.
  rewrite (handle_receiveProps _ _ Hw).
  destruct (requested_moves w nextProps Hsel Hcur Hig) as (pre & -> & Hpre).
  destruct (pre ++ _) eqn:E; [by destruct pre |]. rewrite <- E. clear E.
  match goal with |- context [forM_ runCallback ?l ?w0] =>
    pose proof (runCallbacks_same_instance l w0) as Hs end.
  rewrite (same_instance_state _ _ Hs). simpl.
  rewrite fmap_app, foldl_app. simpl.
  split; [done |]. by destruct Hpre as [-> | ->].
Qed.

Lemma selectedIndex_change_moves_indicator_witness :
  let w' := exec (handle (ReceiveProps (withSelectedIndex 2 threeTabs)))
                 (mount threeTabs 375) in
  State.currentIndex (state w') = 2
  /\ State.scrollEnabled (state w') = false.
Proof.
  apply (selectedIndex_change_moves_indicator (mount threeTabs 375)
           (withSelectedIndex 2 threeTabs));
    [apply mount_settled | vm_compute; congruence .. | reflexivity].
Defined.

(** X2. New props that bring no fewer children, and a [selectedIndex] equal
    to the previous prop or to the current index, only render: the state
    (so the tab chosen by a press, whatever [selectedIndex] says), the
    pending timers and the effect log stay as they are. *)
Theorem rerender_keeps_selection (w : World) (nextProps : Props.t) :
  settled w ->
  (length (Props.children (props w)) <= length (Props.children nextProps))%nat ->
  Props.selectedIndex nextProps = Props.selectedIndex (props w)
  \/ Props.selectedIndex nextProps = State.currentIndex (state w) ->
  let r := handle (ReceiveProps nextProps) w in
  r.1 = Ret tt
  /\ props r.2 = nextProps
  /\ state r.2 = state w
  /\ timers r.2 = timers w
  /\ effects r.2 = effects w.
Proof.
  intros Hw Hlen Hsel r. subst r.
  rewrite (handle_receiveProps _ _ Hw), (requested_stays _ _ Hsel).
  by rewrite (proj2 (Z.ltb_ge _ _)) by lia.
Qed.

Lemma rerender_keeps_selection_witness :
  let r := handle (ReceiveProps threeTabs) lastSelected in
  r.1 = Ret tt
  /\ props r.2 = threeTabs
  /\ state r.2 = State.mk false 2
  /\ timers r.2 = []
  /\ effects r.2 = effects lastSelected.
Proof.
  apply (rerender_keeps_selection lastSelected threeTabs).
  - vm_compute. repeat split; reflexivity.
  - vm_compute. lia.
  - left. reflexivity.
Defined.

(** X3. New props whose [selectedIndex] differs from the previous prop and
    from the current index, and at which there is no child, make the tab
    bar throw a [TypeError], the current index being already moved there. *)
Theorem selectedIndex_without_child_throws (w : World) (nextProps : Props.t) :
  settled w ->
  Props.selectedIndex nextProps <> Props.selectedIndex (props w) ->
  Props.selectedIndex nextProps <> State.currentIndex (state w) ->
  js_index (Props.children nextProps) (Props.selectedIndex nextProps) = None ->
  let r := handle (ReceiveProps nextProps) w in
  r.1 = Throw TypeError
  /\ State.currentIndex (state r.2) = Props.selectedIndex nextProps.
Proof.
  intros Hw Hsel Hcur Hnone r. subst r.
  rewrite (handle_receiveProps _ _ Hw).
  assert (Hig : isIgnored (Props.selectedIndex nextProps) (set_props nextProps w) = false).
  { unfold isIgnored. simpl. by rewrite Hnone. }
  destruct (requested_moves w nextProps Hsel Hcur Hig) as (pre & -> & Hpre).
  set (us := pre ++ _).
  assert (Hst : State.currentIndex (state (commit (set_updates us
                  (rendered (set_props nextProps w)))))
                = Props.selectedIndex nextProps).
  { subst us. simpl. by rewrite fmap_app, foldl_app. }
  assert (Hcbs : exists cb cbs, omap callback us = cb :: cbs).
  { subst us. destruct Hpre as [-> | ->]; simpl; eauto. }
  destruct Hcbs as (cb & cbs & ->).
  destruct us eqn:E; [by destruct pre |]. rewrite <- E in *. clear E.
  rewrite runCallbacks_throws; [done |].
  rewrite Hst. unfold commit. rewrite rendered_ref. simpl. by rewrite Hnone.
Qed.

Lemma selectedIndex_without_child_throws_witness :
  let r := handle (ReceiveProps (withSelectedIndex 5 threeTabs)) (mount threeTabs 375) in
  r.1 = Throw TypeError /\ State.currentIndex (state r.2) = 5.
Proof.
  apply (selectedIndex_without_child_throws (mount threeTabs 375)
           (withSelectedIndex 5 threeTabs));
    [apply mount_settled | vm_compute; congruence .. | reflexivity].
Defined.

(** X4. New props without any child, for a tab bar that had children, make
    the tab bar throw a [TypeError] (the [selectedIndex] being equal to the
    previous prop or to the current index), the current index being already
    reset to 0. *)
Theorem no_children_left_throws (w : World) (nextProps : Props.t) :
  settled w ->
  Props.children nextProps = [] ->
  Props.children (props w) <> [] ->
  Props.selectedIndex nextProps = Props.selectedIndex (props w)
  \/ Props.selectedIndex nextProps = State.currentIndex (state w) ->
  let r := handle (ReceiveProps nextProps) w in
  r.1 = Throw TypeError /\ State.currentIndex (state r.2) = 0.
Proof.
  intros Hw Hnil Hsome Hsel r. subst r.
  rewrite (handle_receiveProps _ _ Hw), (requested_stays _ _ Hsel).
  assert (Hig : isIgnored 0 (set_props nextProps w) = false).
  { unfold isIgnored. simpl. by rewrite Hnil. }
  rewrite Hig, Hnil. simpl.
  destruct (Props.children (props w)) as [|c cs] eqn:Ec; [done |].
  simpl length. rewrite (proj2 (Z.ltb_lt _ _)) by lia. simpl andb. cbv iota.
  change (omap callback [mkUpdate (PatchCurrentIndex 0) (Some CbScrollToSelected)])
    with [CbScrollToSelected].
  rewrite runCallbacks_throws; [done |].
  unfold commit. rewrite rendered_ref. simpl. by rewrite Hnil.
Qed.

Lemma no_children_left_throws_witness :
  let r := handle (ReceiveProps (withChildren [] threeTabs)) lastSelected in
  r.1 = Throw TypeError /\ State.currentIndex (state r.2) = 0.
Proof.
  apply (no_children_left_throws lastSelected (withChildren [] threeTabs)).
  - vm_compute. repeat split; reflexivity.
  - reflexivity.
  - vm_compute. congruence.
  - left. reflexivity.
Defined.

(** ** Runs that do not throw *)









(** ** Where the auto-scroll comes to rest *)






(** ** Who calls the host, and when *)

Section HostCalls.
Context (calls : list Effect).

Lemma quiet_scrollToSelected animated : preserves (made calls) (scrollToSelected animated).
Proof.
  intros w Hw. unfold made in *.
  destruct (scrollToSelected_effects animated w) as (es & Hes & Hscroll).
  unfold hostCalls. rewrite Hes, filter_app, <- Hw.
  replace (filter _ es) with (@nil Effect); [by rewrite app_nil_r |].
  symmetry. clear Hes. induction Hscroll as [|e es [x ->] _ IH]; [done |].
  rewrite filter_cons_False by done. exact IH.
Qed.

Lemma quiet_runCallbacks cbs : preserves (made calls) (forM_ runCallback cbs).
Proof. apply preserves_forM_. intros []. apply quiet_scrollToSelected. Qed.

Lemma quiet_flush fuel : preserves (made calls) (flush fuel).
Proof.
  intros w Hw. destruct fuel as [|fuel].
  - unfold flush. munfold. by destruct (updates w).
  - destruct (updates w) as [|u us] eqn:Eu.
    + by rewrite flush_idle.
    + rewrite flush_eq by (by rewrite Eu). by apply quiet_runCallbacks.
Qed.

Lemma quiet_then_flush (m : M unit) :
  (forall w, effects (m w).2 = effects w) ->
  preserves (made calls) (m;; flush NESTED_UPDATE_LIMIT).
Proof.
  intros Hm. apply preserves_bind; [| intros _; apply quiet_flush].
  intros w Hw. unfold made, hostCalls in *. by rewrite Hm.
Qed.

Lemma quiet_handle e : e <> TimerFires -> preserves (made calls) (handle e).
Proof.
  intros He. destruct e; [| | | | done |].
  - apply quiet_then_flush. intros w. munfold.
    destruct (tree w !! i); [| done].
    unfold onItemPress, updateIndicator, setState, setTimeout. munfold.
    by destruct (negb (isIgnored _ w)).
  - intros w Hw. exact Hw.
  - apply quiet_then_flush. intros w.
    unfold onContentSizeChange, setState. munfold.
    destruct (negb (bool_decide (scrollContentWidth w = Some width))); [| done].
    simpl. by case_match.
  - intros w Hw. unfold handle, receiveProps. munfold.
    rewrite render_eq, componentDidUpdate_eq. by apply quiet_flush.
  - intros w Hw. exact Hw.
Qed.
End HostCalls.

(** X8. The functions that the host passed as props ([onChangeIndex],
    [onTabSelected], an item's [onPress]) are called by the zero-delay timer
    tasks only: a press, a scroll, a content-size change, new props or a
    resize leave the calls made so far as they are. *)
Theorem only_timers_call_host (e : Event) (w : World) :
  e <> TimerFires -> hostCalls (exec (handle e) w) = hostCalls w.
Proof. intros He. by apply (quiet_handle (hostCalls w) e He w). Qed.

Lemma only_timers_call_host_witness :
  hostCalls (exec (handle (Press 2)) lastSelected)
  = [Invoke "onChangeIndex" 1%nat [2]; Invoke "onTabSelected" 2%nat [2];
     Invoke "onPress" 12%nat []].
Proof.
  exact (only_timers_call_host (Press 2) lastSelected ltac:(discriminate)).
Defined.

(** ** Timer tasks *)

Lemma handle_receiveProps_keeps nextProps w :
  settled w ->
  timers (exec (handle (ReceiveProps nextProps)) w) = timers w
  /\ props (exec (handle (ReceiveProps nextProps)) w) = nextProps.
Proof.
  intros Hw. unfold exec. rewrite (handle_receiveProps _ _ Hw).
  destruct (requested _ _ _) as [|u us]; [done |].
  match goal with |- context [forM_ runCallback ?l ?w0] =>
    pose proof (runCallbacks_same_instance l w0) as Hs end.
  by rewrite Hs.
Qed.

(** X9. A timer task reads the props of the tab bar when it fires, and the
    props of the pressed item as they were at the press: after new props
    arrived between the press and the timer, the task calls the new
    [onChangeIndex] and [onTabSelected], with the index of the press, and
    the [onPress] that the item had when it was pressed; whether
    [onChangeIndex] is called is decided by the [ignore] of that time. *)
Theorem timer_reads_props_when_it_fires
    (w : World) (t : Task) (ts : list Task) (nextProps : Props.t) :
  settled w ->
  timers w = t :: ts ->
  let w1 := exec (handle (ReceiveProps nextProps)) w in
  let fired := handle TimerFires w1 in
  fired.1 = Ret tt
  /\ timers fired.2 = ts
  /\ effects fired.2
     = effects w1
         ++ (if ItemProps.ignore (taskProps t) then []
             else called (Props.onChangeIndex nextProps) "onChangeIndex" [taskIndex t])
         ++ called (Props.onTabSelected nextProps) "onTabSelected" [taskIndex t]
         ++ called (ItemProps.onPress (taskProps t)) "onPress" [].
Proof.
  intros Hw Ht w1 fired. subst fired.
  destruct (handle_receiveProps_keeps nextProps w Hw) as [Htim Hprops].
  fold w1 in Htim, Hprops. rewrite Ht in Htim.
  rewrite (handle_timeout _ _ _ Htim), runTask_eq. simpl. by rewrite Hprops.
Qed.

Lemma timer_reads_props_when_it_fires_witness :
  let w := exec (handle (Press 2)) (mount threeTabs 375) in
  let nextProps := Props.mk None 0 (Some 7%nat) None None (Props.children firstTwoTabs) in
  let w1 := exec (handle (ReceiveProps nextProps)) w in
  let fired := handle TimerFires w1 in
  fired.1 = Ret tt
  /\ timers fired.2 = []
  /\ effects fired.2
     = effects w1 ++ [Invoke "onChangeIndex" 7%nat [2]; Invoke "onPress" 12%nat []].
Proof.
  apply (timer_reads_props_when_it_fires
           (exec (handle (Press 2)) (mount threeTabs 375))
           (mkTask 2 (item false "Cart" 12%nat)) []).
  - vm_compute. repeat split; reflexivity.
  - reflexivity.
Defined.

Lemma run_timerFires n w :
  timers (exec (run (replicate n TimerFires)) w) = drop n (timers w)
  /\ state (exec (run (replicate n TimerFires)) w) = state w.
Proof.
  revert w. induction n as [|n IH]; intros w; [by rewrite drop_0 |].
  unfold exec. simpl. munfold.
  destruct (timers w) as [|t ts] eqn:Et; simpl.
  - destruct (IH w) as [IH1 IH2]. unfold exec in IH1, IH2.
    rewrite IH1, IH2, Et. by rewrite drop_nil.
  - rewrite runTask_eq.
    match goal with |- context [run _ ?w0] => destruct (IH w0) as [IH1 IH2] end.
    unfold exec in IH1, IH2. by rewrite IH1, IH2.
Qed.

Lemma handle_press_timers w (i : nat) child :
  settled w ->
  Props.children (props w) !! i = Some child ->
  timers (exec (handle (Press i)) w)
  = timers w ++ [mkTask (Z.of_nat i) (Child.props child)].
Proof.
  intros Hw Hc. unfold exec.
  destruct (ItemProps.ignore (Child.props child)) eqn:Hi.
  - by rewrite (handle_press_ignored _ _ _ Hw Hc Hi).
  - rewrite (handle_press_not_ignored _ _ _ Hw Hc Hi).
    pose proof (scrollToSelected_same_instance true
                  (selecting i (Child.props child) w)) as Hs.
    by rewrite Hs.
Qed.

(** X10. Zero-delay tasks run first in, first out: the press of a tab,
    ignored or not, queues one task behind those still pending, and after as
    many timers fired as were pending before the press, the task of the
    press is the one left, with the index and the props of the pressed
    item. *)
Theorem press_task_waits_its_turn (w : World) (i : nat) (child : Child.t) :
  settled w ->
  Props.children (props w) !! i = Some child ->
  let pressed := exec (handle (Press i)) w in
  timers pressed = timers w ++ [mkTask (Z.of_nat i) (Child.props child)]
  /\ timers (exec (run (replicate (length (timers w)) TimerFires)) pressed)
     = [mkTask (Z.of_nat i) (Child.props child)].
Proof.
  intros Hw Hc pressed. subst pressed.
  pose proof (handle_press_timers _ _ _ Hw Hc) as Ht.
  split; [exact Ht |].
  rewrite (proj1 (run_timerFires _ _)), Ht.
  by rewrite drop_app_length.
Qed.

Lemma press_task_waits_its_turn_witness :
  let w := exec (handle (Press 2)) (mount threeTabs 375) in
  let pressed := exec (handle (Press 1)) w in
  timers pressed
  = [mkTask 2 (item false "Cart" 12%nat); mkTask 1 (item true "Search" 11%nat)]
  /\ timers (exec (run (replicate 1 TimerFires)) pressed)
     = [mkTask 1 (item true "Search" 11%nat)].
Proof.
  apply (press_task_waits_its_turn (exec (handle (Press 2)) (mount threeTabs 375))
           1 (placed (item true "Search" 11%nat) 200 200)).
  - vm_compute. repeat split; reflexivity.
  - reflexivity.
Defined.

(** ** Too few tabs to scroll *)

(** X11. While the tab bar has no more children than the configured
    minimum ([minTabsForScroll], 1 when absent or 0), a content-size change
    records the width but leaves the state, so the scroll flag, as it is,
    however wide the content. *)
Theorem few_tabs_never_scroll (w : World) (width : Z) :
  updates w = [] ->
  childrenCount w <= js_or_number (Props.minTabsForScroll (props w)) MIN_TABS_FOR_SCROLL ->
  let r := handle (ContentSizeChange width) w in
  r.1 = Ret tt
  /\ state r.2 = state w
  /\ scrollContentWidth r.2 = Some width
  /\ effects r.2 = effects w.
Proof.
  intros Hu Hc r. subst r. simpl. unfold onContentSizeChange, setState. munfold.
  destruct (bool_decide (scrollContentWidth w = Some width)) eqn:Ew; simpl.
  - apply bool_decide_eq_true in Ew. by rewrite flush_idle.
  - change (childrenCount (set_scrollContentWidth (Some width) w))
      with (childrenCount w).
    rewrite Z.gtb_ltb, (proj2 (Z.ltb_ge _ _)) by lia.
    rewrite andb_false_r. by rewrite flush_idle.
Qed.

Lemma few_tabs_never_scroll_witness :
  let r := handle (ContentSizeChange 900) (mount oneTab 375) in
  r.1 = Ret tt
  /\ state r.2 = State.mk false 0
  /\ scrollContentWidth r.2 = Some 900
  /\ effects r.2 = [].
Proof.
  apply (few_tabs_never_scroll (mount oneTab 375) 900); vm_compute; congruence.
Defined.

(** ** The mounted tree *)

(** X12. A render marks at most one tab as selected: when the clone at
    [i] is marked, the clone at any other place is not. *)
Theorem at_most_one_selected (w : World) (i j : nat) (ci cj : Clone.t) :
  tree (exec render w) !! i = Some ci ->
  tree (exec render w) !! j = Some cj ->
  i <> j ->
  Clone.selected ci = true ->
  Clone.selected cj = false.
Proof.
  rewrite tree_render, !list_lookup_imap.
  intros Hi Hj Hne Hsi.
  destruct (Props.children (props w) !! i) as [childi|]; [| done].
  destruct (Props.children (props w) !! j) as [childj|]; [| done].
  simpl in Hi, Hj. injection Hi as <-. injection Hj as <-.
  simpl in *. unfold shouldBeMarked in *.
  apply andb_true_iff in Hsi as [[Hi%Z.eqb_eq _]%andb_true_iff _].
  by rewrite (proj2 (Z.eqb_neq _ _)) by lia.
Qed.

Lemma at_most_one_selected_witness :
  Clone.selected (cloneElement lastSelected 0 (placed (item false "Home" 10%nat) 0 200))
  = false.
Proof.
  exact (at_most_one_selected lastSelected 2 0
           (cloneElement lastSelected 2 (placed (item false "Cart" 12%nat) 400 200))
           (cloneElement lastSelected 0 (placed (item false "Home" 10%nat) 0 200))
           eq_refl eq_refl ltac:(discriminate) eq_refl).
Defined.



(** ** Accessibility labels *)

Lemma string_length_app (s t : string) :
  String.length (s +:+ t) = (String.length s + String.length t)%nat.
Proof. induction s as [|c s IH]; simpl; [done | by rewrite IH]. Qed.

Lemma string_app_assoc (s t u : string) : (s +:+ t) +:+ u = s +:+ t +:+ u.
Proof.
  induction s as [|c s IH]; [done |].
  change (String c ((s +:+ t) +:+ u) = String c (s +:+ t +:+ u)). by rewrite IH.
Qed.

Lemma string_app_inv_tail (s1 s2 t : string) : s1 +:+ t = s2 +:+ t -> s1 = s2.
Proof.
  intros H.
  assert (Hlen : String.length s1 = String.length s2).
  { apply (f_equal String.length) in H. rewrite !string_length_app in H. lia. }
  revert s2 H Hlen. induction s1 as [|c s1 IH]; intros [|c' s2] H Hlen; try done.
  simpl in H, Hlen. injection H as -> H. f_equal. apply IH; [done | lia].
Qed.

Lemma pretty_N_go_spaceless (x : N) (s : string) :
  spaceless s = true -> spaceless (pretty_N_go x s) = true.
Proof.
  revert s. induction (N.lt_wf_0 x) as [x _ IH]. intros s Hs.
  assert (x = 0 \/ 0 < x)%N as [->|Hx] by lia.
  - by rewrite pretty_N_go_0.
  - rewrite pretty_N_go_step by done. apply IH; [by apply N.div_lt |].
    simpl. rewrite Hs, andb_true_r.
    unfold pretty_N_char. by repeat case_match.
Qed.

Lemma pretty_Z_spaceless (z : Z) : spaceless (pretty z) = true.
Proof.
  assert (HN : forall n : N, spaceless (pretty n) = true).
  { intros n. unfold pretty, pretty_N. case_decide; [done |].
    by apply pretty_N_go_spaceless. }
  destruct z as [|p|p]; [done | apply HN |].
  unfold pretty, pretty_Z. simpl. apply HN.
Qed.

Lemma string_app_nil (s : string) : EmptyString +:+ s = s.
Proof. reflexivity. Qed.

Lemma string_app_cons c (s t : string) : String c s +:+ t = String c (s +:+ t).
Proof. reflexivity. Qed.

(** What follows the last space of a string is determined by the string. *)
Lemma after_last_space (a b p q : string) :
  spaceless p = true -> spaceless q = true ->
  a +:+ String " " p = b +:+ String " " q -> p = q.
Proof.
  intros Hp Hq. revert b.
  assert (Hno : forall s t, spaceless (s +:+ String " " t) = false).
  { intros s t. induction s as [|c s IH]; [done |].
    rewrite string_app_cons. simpl. by rewrite IH, andb_false_r. }
  induction a as [|c a IH]; intros [|c' b] H;
    rewrite ?string_app_nil, ?string_app_cons in H.
  - by injection H.
  - injection H as _ H. by rewrite H, Hno in Hp.
  - injection H as _ H. by rewrite <- H, Hno in Hq.
  - injection H as _ H. by apply (IH b).
Qed.

(** X14. Within one render no two tabs get the same accessibility label,
    whatever their texts: the position that the label ends with tells them
    apart. *)
Theorem labels_tell_tabs_apart (w : World) (i j : nat) (ci cj : Clone.t) :
  tree (exec render w) !! i = Some ci ->
  tree (exec render w) !! j = Some cj ->
  i <> j ->
  Clone.accessibilityLabel ci <> Clone.accessibilityLabel cj.
Proof.
  rewrite tree_render, !list_lookup_imap.
  intros Hi Hj Hne Heq.
  destruct (Props.children (props w) !! i) as [childi|]; [| done].
  destruct (Props.children (props w) !! j) as [childj|]; [| done].
  simpl in Hi, Hj. injection Hi as <-. injection Hj as <-.
  simpl in Heq.
  rewrite <- !(string_app_assoc _ " " (pretty _ +:+ _)) in Heq.
  rewrite <- !(string_app_assoc _ (pretty _) (" out of " +:+ _)) in Heq.
  apply string_app_inv_tail in Heq.
  rewrite !string_app_assoc in Heq.
  rewrite !(string_app_cons " " EmptyString), !string_app_nil in Heq.
  apply after_last_space in Heq; [| apply pretty_Z_spaceless ..].
  apply (inj pretty) in Heq. lia.
Qed.

Lemma labels_tell_tabs_apart_witness :
  Clone.accessibilityLabel (cloneElement (mount twoAlike 375) 0 (placed (item false "Tab" 10%nat) 0 100))
  <> Clone.accessibilityLabel (cloneElement (mount twoAlike 375) 1 (placed (item false "Tab" 10%nat) 100 100)).
Proof.
  exact (labels_tell_tabs_apart (mount twoAlike 375) 0 1
           (cloneElement (mount twoAlike 375) 0 (placed (item false "Tab" 10%nat) 0 100))
           (cloneElement (mount twoAlike 375) 1 (placed (item false "Tab" 10%nat) 100 100))
           eq_refl eq_refl ltac:(discriminate)).
Defined.

(** ** What presses and new props never do *)

(** X15. Only a content-size change can alter [scrollEnabled]: a press, a
    scroll, new props (fewer children, another container width), a timer
    or a resize leave the flag as it is, so scroll mode is not left when the
    overflow that caused it is gone. *)
Theorem only_contentSizeChange_alters_scrollEnabled (e : Event) (w : World) :
  updates w = [] ->
  (forall width, e <> ContentSizeChange width) ->
  State.scrollEnabled (state (exec (handle e) w)) = State.scrollEnabled (state w).
Proof.
  intros Hu He.
  apply (scroll_flag_handle (State.scrollEnabled (state w)) e He w).
  split; [done |]. rewrite Hu. constructor.
Qed.

Lemma only_contentSizeChange_alters_scrollEnabled_witness :
  State.scrollEnabled (state (exec (handle (ReceiveProps (inContainer 1000))) overflowing))
  = true.
Proof.
  exact (only_contentSizeChange_alters_scrollEnabled
           (ReceiveProps (inContainer 1000)) overflowing eq_refl
           ltac:(discriminate)).
Defined.

(** X16. A press asks nothing of the scroll bar while the content does not
    overflow (in particular before any content width was reported) or while
    the layout of the pressed item is not known; it does not throw either. *)
Theorem press_without_overflow_or_layout_does_not_scroll
    (w : World) (i : nat) (child : Child.t) :
  settled w ->
  Props.children (props w) !! i = Some child ->
  hasOverflow w = false \/ Child.layout child = None ->
  (handle (Press i) w).1 = Ret tt
  /\ effects (exec (handle (Press i)) w) = effects w.
Proof.
  intros Hw Hc Hno. unfold exec.
  destruct (ItemProps.ignore (Child.props child)) eqn:Hi.
  - by rewrite (handle_press_ignored _ _ _ Hw Hc Hi).
  - rewrite (handle_press_not_ignored _ _ _ Hw Hc Hi).
    set (w1 := selecting i (Child.props child) w).
    assert (Hr : mjoin (js_index (itemsRefs w1) (State.currentIndex (state w1)))
                 = Some (mountedItem child)).
    { subst w1. unfold selecting, commit. rewrite rendered_ref. simpl.
      by rewrite js_index_of_nat, Hc. }
    destruct Hno as [Ho|Hl].
    + by rewrite (scrollToSelected_no_overflow true w1 _ Hr Ho).
    + by rewrite (scrollToSelected_no_layout true w1 _ Hr Hl).
Qed.

Lemma press_without_overflow_or_layout_does_not_scroll_witness :
  (handle (Press 2) (mount threeTabs 375)).1 = Ret tt
  /\ effects (exec (handle (Press 2)) (mount threeTabs 375)) = [].
Proof.
  apply (press_without_overflow_or_layout_does_not_scroll (mount threeTabs 375) 2
           (placed (item false "Cart" 12%nat) 400 200)).
  - apply mount_settled.
  - reflexivity.
  - left. reflexivity.
Defined.
